(** * sonic-plush-dex: the catalog handlers of [app/main.py] and the token
    helpers of [app/auth.py], embedded over an explicit store.

    The relational store reached through SQLAlchemy is a pair of tables, each
    a list of rows in storage order.  A query is the list of rows it selects;
    [Query.filter] keeps rows, [count] is the length, [offset]/[limit] cut a
    window, [order_by] sorts, [first] takes the head.  Python integers are
    [Z]; [Optional[T]] is [option T]; an exception is the [Raise] branch of
    [result]. *)

From Stdlib Require Import ZArith Lia Bool List Ascii String.
From Stdlib Require Import Sorting.Sorted Sorting.Permutation.
From stdpp Require Import gmap strings fin_maps.
Import ListNotations.

Local Open Scope Z_scope.

(** ** Exceptions and results *)

Inductive exn : Type :=
| HTTPException (status_code : Z) (detail : string)
| SQLAlchemyError
| ZeroDivisionError
| OverflowError.

Inductive result (A : Type) : Type :=
| Ok (a : A)
| Raise (e : exn).

Arguments Ok {A} a.
Arguments Raise {A} e.

Definition bind {A B : Type} (r : result A) (k : A -> result B) : result B :=
  match r with
  | Ok a => k a
  | Raise e => Raise e
  end.

Notation "'let*' x ':=' r 'in' k" := (bind r (fun x => k))
  (at level 10, x name, r at level 100, k at level 200).

(** ** Python arithmetic used by the pagination envelope *)

Module Py.

(** A finite binary64 value [mant * 2 ^ expo], [|mant| <= 2 ^ 53]. *)
Record float : Type := mkfloat { mant : Z; expo : Z }.

(** Exponent of the quantum in which the quotient [A / B] of two positive
    integers is rounded: the one that leaves a 53-bit significand, but never
    below the subnormal quantum [2 ^ -1074]. *)
Definition quotient_exponent (A B : Z) : Z :=
  let d := Z.log2 A - Z.log2 B in
  let e0 := if A * 2 ^ Z.max 0 (- d) <? B * 2 ^ Z.max 0 d
            then d - 53 else d - 52 in
  Z.max e0 (-1074).

(** The integer nearest to [num / den] for [den > 0], ties to the even
    one. *)
Definition round_half_even (num den : Z) : Z :=
  let q := num / den in
  let r := num mod den in
  if (den <? 2 * r) || ((den =? 2 * r) && Z.odd q) then q + 1 else q.

(** [a / b] on Python integers: the exact quotient, correctly rounded to
    binary64 with ties to even; [ZeroDivisionError] for [b = 0],
    [OverflowError] when the rounded quotient does not fit a float. *)
Definition truediv (a b : Z) : result float :=
  if b =? 0 then Raise ZeroDivisionError
  else if a =? 0 then Ok (mkfloat 0 0)
  else
    let A := Z.abs a in
    let B := Z.abs b in
    let e := quotient_exponent A B in
    let m := round_half_even (A * 2 ^ Z.max 0 (- e)) (B * 2 ^ Z.max 0 e) in
    if 2 ^ 1024 <=? m * 2 ^ Z.max 0 e then Raise OverflowError
    else Ok (mkfloat (Z.sgn a * Z.sgn b * m) e).

(** [math.ceil] of a finite float: the least integer not below it. *)
Definition ceil (x : float) : Z :=
  if 0 <=? expo x then mant x * 2 ^ expo x
  else - ((- mant x) / 2 ^ (- expo x)).

(** [a // b] is floor division, which is [Z.div]. *)
Definition floordiv (a b : Z) : Z := a / b.

(** Truth value of an [int], a [str], a list and of an [Optional] of them:
    [None], zero and the empty sequence are false. *)
Definition truthy_int (n : Z) : bool := negb (n =? 0).

Definition truthy_opt_int (o : option Z) : bool :=
  match o with
  | Some n => truthy_int n
  | None => false
  end.

Definition truthy_opt_str (o : option string) : bool :=
  match o with
  | Some EmptyString => false
  | Some (String _ _) => true
  | None => false
  end.

Definition truthy_opt_list {A : Type} (o : option (list A)) : bool :=
  match o with
  | Some [] => false
  | Some (_ :: _) => true
  | None => false
  end.

End Py.

(** ** The store's SQL operators *)

(** The two stores the engine URL may name differ in what the handlers can
    observe: the default escape character of [LIKE] and the treatment of a
    negative [OFFSET] or [LIMIT]. *)
Inductive dialect : Type := SQLite | PostgreSQL.

Module Sql.

Definition like_escape (d : dialect) : option ascii :=
  match d with
  | SQLite => None
  | PostgreSQL => Some "\"%char
  end.

Inductive like_tok : Type :=
| LikeAny
| LikeOne
| LikeLit (c : ascii).

Definition is_escape (esc : option ascii) (c : ascii) : bool :=
  match esc with
  | Some e => Ascii.eqb c e
  | None => false
  end.

(** A [LIKE] pattern: [%] is any run of characters, [_] any one character,
    the escape character makes the character after it literal.  [escaped]
    tells that the previous character was the escape character.  A pattern
    that ends in a lone escape character is not built by any handler (each
    pattern ends in [%]); nothing is produced for it. *)
Fixpoint like_parse (esc : option ascii) (escaped : bool) (p : list ascii)
  : list like_tok :=
  match p with
  | [] => []
  | c :: p' =>
      if escaped then LikeLit c :: like_parse esc false p'
      else if is_escape esc c then like_parse esc true p'
      else if Ascii.eqb c "%" then LikeAny :: like_parse esc false p'
      else if Ascii.eqb c "_" then LikeOne :: like_parse esc false p'
      else LikeLit c :: like_parse esc false p'
  end.

(** Matching a parsed pattern against the whole of a value. *)
Fixpoint like_match (p : list like_tok) (s : list ascii) : bool :=
  match p with
  | [] => match s with [] => true | _ :: _ => false end
  | LikeAny :: p' =>
      (fix any (s : list ascii) : bool :=
         like_match p' s
         || match s with
            | [] => false
            | _ :: s' => any s'
            end) s
  | LikeOne :: p' =>
      match s with
      | [] => false
      | _ :: s' => like_match p' s'
      end
  | LikeLit c :: p' =>
      match s with
      | [] => false
      | c' :: s' => Ascii.eqb c c' && like_match p' s'
      end
  end.

(** [lower()] folds the ASCII letters and keeps every other character, as
    SQLite's [lower] and [LIKE] do.  Text is a string of 8-bit characters;
    the folding of letters outside ASCII, which PostgreSQL does by locale, is
    not modelled. *)
Definition lower_char (c : ascii) : ascii :=
  let n := nat_of_ascii c in
  if (65 <=? n)%nat && (n <=? 90)%nat then ascii_of_nat (n + 32) else c.

Definition lower (s : list ascii) : list ascii := map lower_char s.

(** [column.ilike(pattern)]: [lower(column) LIKE lower(pattern)]. *)
Definition ilike (d : dialect) (column pattern : string) : bool :=
  like_match
    (like_parse (like_escape d) false (lower (list_ascii_of_string pattern)))
    (lower (list_ascii_of_string column)).

(** [column.in_(values)]: equality with one of the values. *)
Definition in_ (column : string) (values : list string) : bool :=
  existsb (String.eqb column) values.

(** [OFFSET n] and [LIMIT n].  A negative [n] is an error on PostgreSQL; on
    SQLite a negative offset skips nothing and a negative limit is no
    limit. *)
Definition offset {A : Type} (d : dialect) (n : Z) (rows : list A)
  : result (list A) :=
  if n <? 0 then
    match d with
    | SQLite => Ok rows
    | PostgreSQL => Raise SQLAlchemyError
    end
  else Ok (skipn (Z.to_nat n) rows).

Definition limit {A : Type} (d : dialect) (n : Z) (rows : list A)
  : result (list A) :=
  if n <? 0 then
    match d with
    | SQLite => Ok rows
    | PostgreSQL => Raise SQLAlchemyError
    end
  else Ok (firstn (Z.to_nat n) rows).

(** [ORDER BY key ASC]: a stable insertion sort on an integer key. *)
Fixpoint insert_by {A : Type} (key : A -> Z) (x : A) (rows : list A)
  : list A :=
  match rows with
  | [] => [x]
  | y :: rows' =>
      if key x <=? key y then x :: y :: rows'
      else y :: insert_by key x rows'
  end.

Fixpoint order_by {A : Type} (key : A -> Z) (rows : list A) : list A :=
  match rows with
  | [] => []
  | x :: rows' => insert_by key x (order_by key rows')
  end.

(** [Query.first()]. *)
Definition first {A : Type} (rows : list A) : option A := hd_error rows.

End Sql.

(** ** [app/models.py]: the two tables *)

Module PlushTable.
Record row : Type := mk {
  id : Z;
  character : string;
  variation : string;
  set : string;
  releaseyear : Z
}.
End PlushTable.

Module User.
Record row : Type := mk {
  id : Z;
  username : string;
  hashed_password : string
}.
End User.

(** The store behind a session.  [db.add] followed by [db.commit] appends a
    row; the integer primary key left unset is assigned by the store, one
    above the largest key of the table. *)
Record Session : Type := mkSession {
  plushtable : list PlushTable.row;
  users : list User.row
}.

Definition autoincrement (ids : list Z) : Z := 1 + fold_right Z.max 0 ids.

(** ** [app/auth.py] *)

(** What passlib and python-jose provide.  [hash] draws a fresh salt on each
    call; the salt drawn is its first argument. *)
Record CryptContext : Type := {
  verify : string -> string -> bool;
  hash : string -> string -> string
}.

Inductive jwt_value : Type :=
| JStr (s : string)
| JDatetime (t : Z).

Record Jose : Type := {
  encode : gmap string jwt_value -> string -> string -> string
}.

(** [datetime] values are microseconds since the epoch and [timedelta]
    values are microseconds. *)
Definition timedelta (minutes : Z) : Z := minutes * 60 * 1000000.

Section Auth.

Context (pwd_context : CryptContext) (jwt : Jose) (SECRET_KEY : string).

Definition verify_password (plain_password hashed_password : string) : bool :=
  verify pwd_context plain_password hashed_password.

Definition get_password_hash (salt password : string) : string :=
  hash pwd_context salt password.

(** [expires_delta or timedelta(minutes = 15)]: a zero [timedelta] is false
    too.  [utcnow] is the reading of the clock at the call. *)
Definition create_access_token (utcnow : Z) (data : gmap string jwt_value)
    (expires_delta : option Z) : string :=
  let to_encode := data in
  let expire := utcnow + (if Py.truthy_opt_int expires_delta
                          then default 0 expires_delta
                          else timedelta 15) in
  let to_encode := <["exp" := JDatetime expire]> to_encode in
  let encoded_jwt := encode jwt to_encode SECRET_KEY "RS256" in
  encoded_jwt.

End Auth.

(** ** [app/main.py] *)

Module PlushBase.
Record t : Type := mk {
  character : string;
  variation : string;
  set : string;
  releaseyear : Z
}.
End PlushBase.

Record OAuth2PasswordRequestForm : Type := {
  username : string;
  password : string
}.

Record Filters : Type := mkFilters {
  f_characters : option (list string);
  f_variations : option (list string);
  f_sets : option (list string);
  f_min_year : option Z;
  f_max_year : option Z
}.

(** The dictionary returned by the search and filter handlers; the key
    ["filters"] is present in the filter handler's only. *)
Record Envelope : Type := mkEnvelope {
  filters : option Filters;
  skip : Z;
  total_pages : Z;
  current_page : Z;
  limit : Z;
  results : list PlushTable.row
}.

Record Token : Type := mkToken {
  access_token : string;
  token_type : string
}.

Definition get_all_plushies (db : Session) : list PlushTable.row :=
  Sql.order_by PlushTable.id (plushtable db).

Definition get_plush (plush_id : Z) (db : Session) : result PlushTable.row :=
  let result :=
    Sql.first (List.filter (fun r => PlushTable.id r =? plush_id) (plushtable db)) in
  match result with
  | None => Raise (HTTPException 404 "Plush not found!")
  | Some r => Ok r
  end.

Definition create_plush (plush : PlushBase.t) (db : Session)
  : PlushTable.row * Session :=
  let db_plush :=
    PlushTable.mk (autoincrement (map PlushTable.id (plushtable db)))
      (PlushBase.character plush) (PlushBase.variation plush)
      (PlushBase.set plush) (PlushBase.releaseyear plush) in
  (db_plush, mkSession (plushtable db ++ [db_plush]) (users db)).

(** [f"%{q}%"] *)
Definition contains_pattern (q : string) : string := ("%" ++ q ++ "%")%string.

(** The pagination arithmetic, written twice in the source with the same
    text. *)
Definition page_count (total_results limit : Z) : result Z :=
  if Py.truthy_int limit
  then let* x := Py.truediv total_results limit in Ok (Py.ceil x)
  else Ok 1.

Definition page_number (skip limit : Z) : Z :=
  if Py.truthy_int limit then Py.floordiv skip limit + 1 else 1.

Definition window (d : dialect) (skip limit : Z) (query : list PlushTable.row)
  : result (list PlushTable.row) :=
  let* q1 := Sql.offset d skip query in Sql.limit d limit q1.

Definition search_query (d : dialect) (q character variation set : option string)
    (db : Session) : list PlushTable.row :=
  let query := plushtable db in
  let query :=
    if Py.truthy_opt_str q then
      List.filter (fun r =>
        Sql.ilike d (PlushTable.character r) (contains_pattern (default "" q))
        || Sql.ilike d (PlushTable.variation r) (contains_pattern (default "" q))
        || Sql.ilike d (PlushTable.set r) (contains_pattern (default "" q))) query
    else query in
  let query :=
    if Py.truthy_opt_str character then
      List.filter (fun r =>
        Sql.ilike d (PlushTable.character r)
          (contains_pattern (default "" character))) query
    else query in
  let query :=
    if Py.truthy_opt_str variation then
      List.filter (fun r =>
        Sql.ilike d (PlushTable.variation r)
          (contains_pattern (default "" variation))) query
    else query in
  let query :=
    if Py.truthy_opt_str set then
      List.filter (fun r =>
        Sql.ilike d (PlushTable.set r) (contains_pattern (default "" set))) query
    else query in
  query.

Definition search_plushies (d : dialect) (q character variation set : option string)
    (skip limit : Z) (db : Session) : result Envelope :=
  let query := search_query d q character variation set db in
  let total_results := Z.of_nat (length query) in
  let* results := window d skip limit query in
  let* total_pages := page_count total_results limit in
  Ok (mkEnvelope None skip total_pages (page_number skip limit) limit results).

Definition get_plushies (d : dialect) (skip limit : Z) (db : Session)
  : result (list PlushTable.row) :=
  window d skip limit (Sql.order_by PlushTable.id (plushtable db)).

Definition filter_query (characters variations sets : option (list string))
    (min_year max_year : option Z) (db : Session) : list PlushTable.row :=
  let query := plushtable db in
  let query :=
    if Py.truthy_opt_list characters then
      List.filter (fun r =>
        Sql.in_ (PlushTable.character r) (default [] characters)) query
    else query in
  let query :=
    if Py.truthy_opt_list variations then
      List.filter (fun r =>
        Sql.in_ (PlushTable.variation r) (default [] variations)) query
    else query in
  let query :=
    if Py.truthy_opt_list sets then
      List.filter (fun r => Sql.in_ (PlushTable.set r) (default [] sets)) query
    else query in
  let query :=
    if Py.truthy_opt_int min_year then
      List.filter (fun r => default 0 min_year <=? PlushTable.releaseyear r) query
    else query in
  let query :=
    if Py.truthy_opt_int max_year then
      List.filter (fun r => PlushTable.releaseyear r <=? default 0 max_year) query
    else query in
  query.

Definition filter_plushies (d : dialect)
    (characters variations sets : option (list string))
    (min_year max_year : option Z) (skip limit : Z) (db : Session)
  : result Envelope :=
  let query := filter_query characters variations sets min_year max_year db in
  let total_results := Z.of_nat (length query) in
  let* results := window d skip limit query in
  let* total_pages := page_count total_results limit in
  Ok (mkEnvelope
        (Some (mkFilters characters variations sets min_year max_year))
        skip total_pages (page_number skip limit) limit results).

Section Login.

Context (pwd_context : CryptContext) (jwt : Jose) (SECRET_KEY : string).

Definition register (salt : string) (form_data : OAuth2PasswordRequestForm)
    (db : Session) : result string * Session :=
  let existing_user :=
    Sql.first (List.filter
                 (fun u => String.eqb (User.username u) (username form_data))
                 (users db)) in
  match existing_user with
  | Some _ =>
      (Raise (HTTPException 400 "Username already registered."), db)
  | None =>
      let hashed_pw := get_password_hash pwd_context salt (password form_data) in
      let new_user :=
        User.mk (autoincrement (map User.id (users db)))
          (username form_data) hashed_pw in
      (Ok "User registered successfully!"%string,
       mkSession (plushtable db) (users db ++ [new_user]))
  end.

Definition login (utcnow : Z) (form_data : OAuth2PasswordRequestForm)
    (db : Session) : result Token :=
  let user :=
    Sql.first (List.filter
                 (fun u => String.eqb (User.username u) (username form_data))
                 (users db)) in
  match user with
  | None => Raise (HTTPException 401 "Invalid username or password")
  | Some u =>
      if negb (verify_password pwd_context (password form_data)
                 (User.hashed_password u))
      then Raise (HTTPException 401 "Invalid username or password")
      else
        let access_token :=
          create_access_token jwt SECRET_KEY utcnow
            {["sub" := JStr (User.username u)]}
            (Some (timedelta 60)) in
        Ok (mkToken access_token "bearer")
  end.

End Login.

(** ** What the spec says of the pagination arithmetic *)

(** Modelled after the spec's words: [ceil(total_matching / limit)] on the
    exact quotient. *)
Definition ceil_quotient (a b : Z) : Z := - ((- a) / b).

(** Modelled after the spec's words: [floor(skip / limit)] on the exact
    quotient. *)
Definition floor_quotient (a b : Z) : Z := a / b.

(** ** What the spec says of matching *)

(** Modelled after the spec's words: [q] occurs in [field] as a substring,
    letter case ignored. *)
Definition occurs_in (q field : string) : Prop :=
  exists pre post,
    Sql.lower (list_ascii_of_string field)
    = pre ++ Sql.lower (list_ascii_of_string q) ++ post.

(** No character of [q] is read by [LIKE] as a wildcard or as the escape
    character of the dialect. *)
Definition like_literal_char (d : dialect) (c : ascii) : bool :=
  negb (Ascii.eqb c "%" || Ascii.eqb c "_"
        || Sql.is_escape (Sql.like_escape d) c).

Definition like_literal (d : dialect) (q : string) : bool :=
  forallb (like_literal_char d) (list_ascii_of_string q).

Definition like_literal_opt (d : dialect) (o : option string) : bool :=
  match o with
  | Some q => like_literal d q
  | None => true
  end.

(** ** What the spec says of the listing order *)

(** Modelled after the spec's words: sorted by [key] ascending, every row
    no greater than each row after it. *)
Definition key_le {A : Type} (key : A -> Z) (a b : A) : Prop := key a <= key b.

Definition ascending {A : Type} (key : A -> Z) (rows : list A) : Prop :=
  StronglySorted (key_le key) rows.

(** ** What the spec says of "the same result" *)

(** The part of an envelope that does not echo the request's filters. *)
Definition page_of (e : Envelope)
  : Z * Z * Z * Z * list PlushTable.row :=
  (skip e, total_pages e, current_page e, limit e, results e).

Definition same_page (a b : result Envelope) : Prop :=
  match a, b with
  | Ok x, Ok y => page_of x = page_of y
  | Raise e1, Raise e2 => e1 = e2
  | _, _ => False
  end.

(** ** Sample data *)

Definition sonic : PlushTable.row := PlushTable.mk 1 "Sonic" "Classic" "Wave 1" 1991.
Definition tails : PlushTable.row := PlushTable.mk 2 "Tails" "Modern" "Wave 2" 1999.
Definition knuckles : PlushTable.row := PlushTable.mk 3 "Knuckles" "xABCx" "Wave 1" 2000.
Definition echidna : PlushTable.row := PlushTable.mk 4 "Echidna" "Mural" "Lost World" (-1).

Definition shelf : Session := mkSession [knuckles; sonic; echidna; tails] [].

(** A toy password context and token encoder to run the handlers with. *)
Definition toy_context : CryptContext :=
  {| verify := fun plain hashed => String.eqb hashed ("h(" ++ plain ++ ")");
     hash := fun salt plain => ("h(" ++ plain ++ ")")%string |}.

Definition toy_jose : Jose :=
  {| encode := fun claims key alg =>
       match claims !! "sub"%string with
       | Some (JStr s) => (s ++ "." ++ alg)%string
       | _ => alg
       end |}.

Definition amy : User.row := User.mk 1 "amy" "h(rose)".

Definition members : Session := mkSession [] [amy].

Section Rounding.

Variables (num den : Z).
Hypothesis den_pos : 0 < den.

Lemma division_facts :
  num = den * (num / den) + num mod den /\ 0 <= num mod den < den.
Proof.
  split.
  - apply Z.div_mod. lia.
  - apply Z.mod_pos_bound. lia.
Qed.

Lemma round_half_even_range :
  num / den <= Py.round_half_even num den <= num / den + 1.
Proof. unfold Py.round_half_even. cbv zeta. destruct (_ || _); lia. Qed.

Lemma round_half_even_up :
  den < 2 * (num mod den) -> Py.round_half_even num den = num / den + 1.
Proof.
  intros H. unfold Py.round_half_even. cbv zeta.
  destruct (Z.ltb_spec den (2 * (num mod den))); [reflexivity | lia].
Qed.

Lemma round_half_even_down :
  2 * (num mod den) < den -> Py.round_half_even num den = num / den.
Proof.
  intros H. unfold Py.round_half_even. cbv zeta.
  destruct (Z.ltb_spec den (2 * (num mod den))); [lia |].
  destruct (Z.eqb_spec den (2 * (num mod den))); [lia | reflexivity].
Qed.

End Rounding.

(** Rounding the scaled quotient [A * P / B] to the nearest integer keeps it
    between the same two multiples of [P] as before, provided the quantum is
    finer than [2 / B]. *)
Lemma round_keeps_ceiling (A B P n : Z) :
  0 < B -> 0 < P -> B < 2 * P ->
  (n - 1) * B < A <= n * B ->
  (n - 1) * P < Py.round_half_even (A * P) B <= n * P.
Proof.
  intros HB HP Hfine [Hlo Hhi].
  destruct (division_facts (A * P) B HB) as [Hdm Hr].
  pose proof (round_half_even_range (A * P) B) as Hrange.
  set (q := A * P / B) in *. set (r := (A * P) mod B) in *.
  assert (Hq_lo : (n - 1) * P <= q) by nia.
  assert (Hq_hi : q <= n * P) by nia.
  split.
  - destruct (Z.eq_dec q ((n - 1) * P)) as [Heq | Hne]; [| lia].
    assert (Hrem : r = P * (A - (n - 1) * B)) by (rewrite Heq in Hdm; lia).
    assert (P <= r) by nia.
    rewrite round_half_even_up; fold q r; lia.
  - destruct (Z.eq_dec q (n * P)) as [Heq | Hne]; [| lia].
    assert (Hrem : r = P * (A - n * B)) by (rewrite Heq in Hdm; lia).
    assert (r <= 0) by nia.
    rewrite round_half_even_down; fold q r; lia.
Qed.

Lemma round_keeps_floor (A B P n : Z) :
  0 < B -> 0 < P -> B < 2 * P ->
  n * B <= A < (n + 1) * B ->
  n * P <= Py.round_half_even (A * P) B < (n + 1) * P.
Proof.
  intros HB HP Hfine [Hlo Hhi].
  destruct (division_facts (A * P) B HB) as [Hdm Hr].
  pose proof (round_half_even_range (A * P) B) as Hrange.
  set (q := A * P / B) in *. set (r := (A * P) mod B) in *.
  assert (Hq_lo : n * P <= q) by nia.
  assert (Hq_hi : q < (n + 1) * P) by nia.
  split; [lia |].
  destruct (Z.eq_dec q ((n + 1) * P - 1)) as [Heq | Hne]; [| lia].
  assert (Hrem : r = B - P * ((n + 1) * B - A)) by (rewrite Heq in Hdm; lia).
  assert (r <= B - P) by nia.
  rewrite round_half_even_down; fold q r; lia.
Qed.

Lemma quotient_exponent_facts (A B : Z) :
  0 < A < 2 ^ 53 -> 0 < B < 2 ^ 1075 ->
  let k := - Py.quotient_exponent A B in
  0 <= k <= 1074 /\ B < 2 * 2 ^ k /\ A * 2 ^ k < 2 ^ 54 * B.
Proof.
  intros HA HB.
  destruct (Z.log2_spec A) as [HAlo HAhi]; [lia |].
  destruct (Z.log2_spec B) as [HBlo HBhi]; [lia |].
  assert (Hla : 0 <= Z.log2 A <= 52).
  { split; [apply Z.log2_nonneg |].
    assert (Z.log2 A < 53) by (apply Z.log2_lt_pow2; lia). lia. }
  assert (Hlb : 0 <= Z.log2 B) by apply Z.log2_nonneg.
  unfold Py.quotient_exponent. cbv zeta.
  set (d := Z.log2 A - Z.log2 B).
  set (e0 := if _ <? _ then d - 53 else d - 52).
  assert (He0 : d - 53 <= e0 <= d - 52) by (subst e0; destruct (_ <? _); lia).
  clearbody e0.
  set (k := - Z.max e0 (-1074)).
  assert (Hk : 0 <= k <= 1074) by (subst k d; lia).
  split; [exact Hk |]. split.
  - destruct (Z.eq_dec k 1074) as [-> | Hne].
    + change (2 * 2 ^ 1074) with (2 ^ 1075). lia.
    + assert (Hkl : Z.log2 B <= k) by (subst k d; lia).
      assert (2 ^ Z.log2 B <= 2 ^ k) by (apply Z.pow_le_mono_r; lia).
      rewrite Z.pow_succ_r in HBhi by lia. lia.
  - assert (Hku : k <= 53 - Z.log2 A + Z.log2 B) by (subst k d; lia).
    assert (Hpk : 2 ^ k <= 2 ^ (53 - Z.log2 A + Z.log2 B))
      by (apply Z.pow_le_mono_r; lia).
    assert (Hsplit : 2 ^ Z.succ (Z.log2 A) * 2 ^ (53 - Z.log2 A + Z.log2 B)
                     = 2 ^ 54 * 2 ^ Z.log2 B).
    { rewrite <- !Z.pow_add_r by lia. f_equal. lia. }
    assert (0 < 2 ^ k) by (apply Z.pow_pos_nonneg; lia).
    assert (0 < 2 ^ (53 - Z.log2 A + Z.log2 B)) by (apply Z.pow_pos_nonneg; lia).
    assert (A * 2 ^ k < 2 ^ Z.succ (Z.log2 A) * 2 ^ (53 - Z.log2 A + Z.log2 B))
      by nia.
    assert (2 ^ 54 * 2 ^ Z.log2 B <= 2 ^ 54 * B) by nia.
    lia.
Qed.

Lemma ceil_scaled (M k : Z) :
  0 <= k -> Py.ceil (Py.mkfloat M (- k)) = - ((- M) / 2 ^ k).
Proof.
  intros Hk. unfold Py.ceil. cbn [Py.expo Py.mant].
  destruct (Z.leb_spec 0 (- k)) as [H0 | H0].
  - assert (k = 0) as -> by lia. cbn. rewrite Z.div_1_r. lia.
  - rewrite Z.opp_involutive. reflexivity.
Qed.

Lemma between_multiples_ceil (m P n : Z) :
  0 < P -> (n - 1) * P < m <= n * P -> - ((- m) / P) = n.
Proof.
  intros HP H.
  rewrite <- (Z.div_unique (- m) P (- n) (n * P - m)); lia.
Qed.

Lemma between_multiples_floor (m P n : Z) :
  0 < P -> n * P <= m < (n + 1) * P -> m / P = n.
Proof.
  intros HP H. symmetry. apply (Z.div_unique m P n (m - n * P)); lia.
Qed.

Lemma ceil_quotient_bounds (a b : Z) :
  0 < b -> (ceil_quotient a b - 1) * b < a <= ceil_quotient a b * b.
Proof.
  intros Hb. unfold ceil_quotient.
  pose proof (Z.div_mod (- a) b) as Hdm.
  pose proof (Z.mod_pos_bound (- a) b Hb) as Hr.
  nia.
Qed.

Lemma floor_quotient_bounds (a b : Z) :
  0 < b -> floor_quotient a b * b <= a < (floor_quotient a b + 1) * b.
Proof.
  intros Hb. unfold floor_quotient.
  pose proof (Z.div_mod a b) as Hdm.
  pose proof (Z.mod_pos_bound a b Hb) as Hr.
  nia.
Qed.

(** Below [2 ^ 53] the float quotient loses nothing that [math.ceil] sees. *)
Lemma truediv_ceil_exact (a b : Z) :
  0 < a < 2 ^ 53 -> b <> 0 -> Z.abs b < 2 ^ 1075 ->
  exists x, Py.truediv a b = Ok x /\ Py.ceil x = ceil_quotient a b.
Proof.
  intros Ha Hb Hbound.
  assert (HA : Z.abs a = a) by lia.
  destruct (quotient_exponent_facts a (Z.abs b)) as (Hk & Hfine & Hnorm);
    [lia | lia |].
  unfold Py.truediv.
  destruct (Z.eqb_spec b 0) as [| _]; [contradiction |].
  destruct (Z.eqb_spec a 0) as [| _]; [lia |].
  cbv zeta. rewrite HA.
  set (k := - Py.quotient_exponent a (Z.abs b)) in *.
  replace (Py.quotient_exponent a (Z.abs b)) with (- k) by (subst k; lia).
  rewrite (Z.max_r 0 k) by lia. rewrite (Z.max_l 0 (- k)) by lia.
  change (2 ^ 0) with 1. rewrite !Z.mul_1_r.
  set (m := Py.round_half_even (a * 2 ^ k) (Z.abs b)).
  assert (HP : 0 < 2 ^ k) by (apply Z.pow_pos_nonneg; lia).
  assert (Hm : m <= 2 ^ 54).
  { pose proof (round_half_even_range (a * 2 ^ k) (Z.abs b)) as Hr.
    fold m in Hr.
    assert (a * 2 ^ k / Z.abs b < 2 ^ 54)
      by (apply Z.div_lt_upper_bound; lia).
    lia. }
  destruct (Z.leb_spec (2 ^ 1024) m) as [Hov | _]; [lia |].
  eexists. split; [reflexivity |].
  rewrite ceil_scaled by lia.
  destruct (Z.lt_trichotomy b 0) as [Hneg | [Hz | Hpos]]; [| contradiction |].
  - (* a negative divisor: the ceiling of the negated floor *)
    replace (Z.sgn a * Z.sgn b * m) with (- m)
      by (rewrite (Z.sgn_pos a), (Z.sgn_neg b); lia).
    rewrite Z.opp_involutive.
    unfold ceil_quotient.
    replace (- a / b) with (a / Z.abs b)
      by (rewrite <- (Z.div_opp_opp a (Z.abs b)) by lia; f_equal; lia).
    f_equal.
    apply between_multiples_floor; [exact HP |].
    apply round_keeps_floor; [lia | exact HP | lia |].
    apply (floor_quotient_bounds a (Z.abs b)). lia.
  - replace (Z.sgn a * Z.sgn b * m) with m
      by (rewrite (Z.sgn_pos a), (Z.sgn_pos b); lia).
    apply between_multiples_ceil; [exact HP |].
    subst m. replace (Z.abs b) with b in * by lia.
    apply round_keeps_ceiling; [lia | exact HP | lia |].
    apply ceil_quotient_bounds. lia.
Qed.

Lemma page_count_exact (total_results limit : Z) :
  0 <= total_results < 2 ^ 53 -> Z.abs limit < 2 ^ 1075 ->
  page_count total_results limit
  = Ok (if limit =? 0 then 1 else ceil_quotient total_results limit).
Proof.
  intros Ht Hl. unfold page_count, Py.truthy_int.
  destruct (Z.eqb_spec limit 0) as [| Hnz]; [reflexivity |]. cbn [negb].
  destruct (Z.eq_dec total_results 0) as [-> | Hpos].
  - unfold Py.truediv.
    destruct (Z.eqb_spec limit 0); [contradiction |].
    cbn. unfold ceil_quotient. cbn. reflexivity.
  - destruct (truediv_ceil_exact total_results limit) as (x & -> & Hx);
      [lia | exact Hnz | exact Hl |].
    cbn. rewrite Hx. reflexivity.
Qed.

(** The model of [/] agrees with CPython on a quotient that is exact, one
    that is rounded, a tie, a subnormal and an overflow. *)
Example truediv_exact :
  Py.truediv 25 10 = Ok (Py.mkfloat 5629499534213120 (-51)).
Proof. vm_compute. reflexivity. Qed.

Example truediv_rounded :
  Py.truediv 1 3 = Ok (Py.mkfloat 6004799503160661 (-54)).
Proof. vm_compute. reflexivity. Qed.

Example truediv_tie_to_even :
  exists m e, Py.truediv (2 ^ 53 + 3) 2 = Ok (Py.mkfloat m e)
              /\ m * 2 ^ e = 2 ^ 52 + 2.
Proof. eexists _, _. split; vm_compute; reflexivity. Qed.

Example truediv_subnormal :
  Py.truediv 3 (2 ^ 1075) = Ok (Py.mkfloat 2 (-1074)).
Proof. vm_compute. reflexivity. Qed.

Example truediv_overflow :
  Py.truediv (2 ^ 1024 - 2 ^ 969) 1 = Raise OverflowError.
Proof. vm_compute. reflexivity. Qed.

(** ** [LIKE] on a pattern without wildcards is substring search *)

Lemma like_match_any (p : list Sql.like_tok) (s : list ascii) :
  Sql.like_match (Sql.LikeAny :: p) s
  = Sql.like_match p s
    || match s with
       | [] => false
       | _ :: s' => Sql.like_match (Sql.LikeAny :: p) s'
       end.
Proof. destruct s; reflexivity. Qed.

Lemma like_match_any_iff (p : list Sql.like_tok) (s : list ascii) :
  Sql.like_match (Sql.LikeAny :: p) s = true
  <-> exists pre t, s = pre ++ t /\ Sql.like_match p t = true.
Proof.
  induction s as [| c s IH]; rewrite like_match_any.
  - rewrite orb_false_r. split.
    + intros H. exists [], []. auto.
    + intros (pre & t & Heq & H).
      symmetry in Heq. apply app_eq_nil in Heq as [_ ->]. exact H.
  - rewrite orb_true_iff, IH. split.
    + intros [H | (pre & t & -> & H)].
      * exists [], (c :: s). auto.
      * exists (c :: pre), t. auto.
    + intros (pre & t & Heq & H). destruct pre as [| c' pre]; cbn in Heq.
      * left. subst t. exact H.
      * right. injection Heq as _ ->. exists pre, t. auto.
Qed.

Lemma like_match_literals (q : list ascii) (p : list Sql.like_tok)
    (s : list ascii) :
  Sql.like_match (map Sql.LikeLit q ++ p) s = true
  <-> exists t, s = q ++ t /\ Sql.like_match p t = true.
Proof.
  revert s. induction q as [| c q IH]; intros s; cbn [map app].
  - split; [intros H; exists s; auto | intros (t & -> & H); exact H].
  - destruct s as [| c' s]; cbn [Sql.like_match].
    + split; [discriminate | intros (t & Heq & _); discriminate].
    + rewrite andb_true_iff, IH, Ascii.eqb_eq. split.
      * intros (-> & t & -> & H). exists t. auto.
      * intros (t & Heq & H). injection Heq as -> ->. eauto.
Qed.

Lemma like_match_contains (q s : list ascii) :
  Sql.like_match (Sql.LikeAny :: map Sql.LikeLit q ++ [Sql.LikeAny]) s = true
  <-> exists pre post, s = pre ++ q ++ post.
Proof.
  rewrite like_match_any_iff. split.
  - intros (pre & t & -> & H). apply like_match_literals in H as (post & -> & _).
    eauto.
  - intros (pre & post & ->). exists pre, (q ++ post). split; [reflexivity |].
    apply like_match_literals. exists post. split; [reflexivity |].
    apply like_match_any_iff. exists post, []. rewrite app_nil_r. auto.
Qed.

Lemma list_ascii_of_string_app (s1 s2 : string) :
  list_ascii_of_string (s1 ++ s2)
  = list_ascii_of_string s1 ++ list_ascii_of_string s2.
Proof.
  induction s1 as [| c s1 IH]; [reflexivity |].
  change (c :: list_ascii_of_string (s1 ++ s2)
          = c :: (list_ascii_of_string s1 ++ list_ascii_of_string s2)).
  now rewrite IH.
Qed.

Lemma contains_pattern_chars (q : string) :
  list_ascii_of_string (contains_pattern q)
  = "%"%char :: list_ascii_of_string q ++ ["%"%char].
Proof.
  unfold contains_pattern. rewrite !list_ascii_of_string_app. reflexivity.
Qed.

Lemma lower_char_literal (d : dialect) (c : ascii) :
  like_literal_char d c = true -> like_literal_char d (Sql.lower_char c) = true.
Proof.
  destruct d; destruct c as [[] [] [] [] [] [] [] []]; vm_compute; auto.
Qed.

Lemma lower_literal (d : dialect) (l : list ascii) :
  forallb (like_literal_char d) l = true ->
  forallb (like_literal_char d) (Sql.lower l) = true.
Proof.
  induction l as [| c l IH]; cbn; [reflexivity |].
  rewrite !andb_true_iff. intros [Hc Hl].
  split; [apply lower_char_literal, Hc | apply IH, Hl].
Qed.

Lemma like_parse_literals (d : dialect) (l rest : list ascii) :
  forallb (like_literal_char d) l = true ->
  Sql.like_parse (Sql.like_escape d) false (l ++ rest)
  = map Sql.LikeLit l ++ Sql.like_parse (Sql.like_escape d) false rest.
Proof.
  induction l as [| c l IH]; cbn [forallb app map]; [reflexivity |].
  rewrite andb_true_iff. intros [Hc Hl].
  unfold like_literal_char in Hc.
  rewrite negb_true_iff, !orb_false_iff in Hc. destruct Hc as [[Hp Hu] He].
  cbn [Sql.like_parse]. rewrite He, Hp, Hu, IH by exact Hl. reflexivity.
Qed.

Lemma like_parse_contains (d : dialect) (q : string) :
  like_literal d q = true ->
  Sql.like_parse (Sql.like_escape d) false
    (Sql.lower (list_ascii_of_string (contains_pattern q)))
  = Sql.LikeAny :: map Sql.LikeLit (Sql.lower (list_ascii_of_string q))
      ++ [Sql.LikeAny].
Proof.
  intros Hq. rewrite contains_pattern_chars.
  unfold Sql.lower at 1. cbn [map]. rewrite map_app. cbn [map].
  change (Sql.lower_char "%") with "%"%char.
  fold (Sql.lower (list_ascii_of_string q)).
  assert (Hany : forall l, Sql.like_parse (Sql.like_escape d) false ("%"%char :: l)
                           = Sql.LikeAny :: Sql.like_parse (Sql.like_escape d) false l)
    by (intros l; destruct d; reflexivity).
  rewrite Hany, like_parse_literals by (apply lower_literal, Hq).
  rewrite Hany. reflexivity.
Qed.

(** For a search text without wildcards, [ilike] of [%text%] is the
    case-insensitive substring test. *)
Lemma ilike_contains (d : dialect) (column q : string) :
  like_literal d q = true ->
  Sql.ilike d column (contains_pattern q) = true <-> occurs_in q column.
Proof.
  intros Hq. unfold Sql.ilike, occurs_in.
  rewrite like_parse_contains by exact Hq. apply like_match_contains.
Qed.

Lemma occurs_in_empty (column : string) : occurs_in "" column.
Proof. exists [], (Sql.lower (list_ascii_of_string column)). reflexivity. Qed.

(** ** The rows a query selects *)

Lemma In_optional_filter {A : Type} (b : bool) (f : A -> bool) (l : list A)
    (r : A) :
  In r (if b then List.filter f l else l) <-> In r l /\ (b = true -> f r = true).
Proof.
  destruct b.
  - rewrite filter_In. intuition.
  - intuition discriminate.
Qed.

Section OptionalText.

Context {A : Type} (d : dialect).
Variables (f : string -> A -> bool) (P : string -> A -> Prop).
Hypothesis f_spec :
  forall x r, like_literal d x = true -> (f x r = true <-> P x r).
Hypothesis P_empty : forall r, P "" r.

Lemma In_text_filter (o : option string) (l : list A) (r : A) :
  like_literal_opt d o = true ->
  In r (if Py.truthy_opt_str o then List.filter (f (default "" o)) l else l)
  <-> In r l /\ (forall x, o = Some x -> P x r).
Proof.
  intros Ho. rewrite In_optional_filter.
  destruct o as [[| c x] |]; cbn in *.
  - split; intros [Hin H]; (split; [exact Hin |]).
    + intros x [= <-]. apply P_empty.
    + discriminate.
  - split; intros [Hin H]; (split; [exact Hin |]).
    + intros y [= <-]. apply f_spec; auto.
    + intros _. apply f_spec; auto.
  - split; intros [Hin H]; (split; [exact Hin |]); [discriminate | discriminate].
Qed.

End OptionalText.

Lemma search_query_In (d : dialect) (q character variation set : option string)
    (db : Session) (r : PlushTable.row) :
  like_literal_opt d q = true ->
  like_literal_opt d character = true ->
  like_literal_opt d variation = true ->
  like_literal_opt d set = true ->
  In r (search_query d q character variation set db)
  <-> In r (plushtable db)
      /\ (forall x, q = Some x ->
            occurs_in x (PlushTable.character r)
            \/ occurs_in x (PlushTable.variation r)
            \/ occurs_in x (PlushTable.set r))
      /\ (forall x, character = Some x -> occurs_in x (PlushTable.character r))
      /\ (forall x, variation = Some x -> occurs_in x (PlushTable.variation r))
      /\ (forall x, set = Some x -> occurs_in x (PlushTable.set r)).
Proof.
  intros Hq Hc Hv Hs. unfold search_query.
  rewrite (In_text_filter d
             (fun x r => Sql.ilike d (PlushTable.set r) (contains_pattern x))
             (fun x r => occurs_in x (PlushTable.set r)))
    by (auto using occurs_in_empty; intros; now apply ilike_contains).
  rewrite (In_text_filter d
             (fun x r => Sql.ilike d (PlushTable.variation r) (contains_pattern x))
             (fun x r => occurs_in x (PlushTable.variation r)))
    by (auto using occurs_in_empty; intros; now apply ilike_contains).
  rewrite (In_text_filter d
             (fun x r => Sql.ilike d (PlushTable.character r) (contains_pattern x))
             (fun x r => occurs_in x (PlushTable.character r)))
    by (auto using occurs_in_empty; intros; now apply ilike_contains).
  rewrite (In_text_filter d
             (fun x r =>
                Sql.ilike d (PlushTable.character r) (contains_pattern x)
                || Sql.ilike d (PlushTable.variation r) (contains_pattern x)
                || Sql.ilike d (PlushTable.set r) (contains_pattern x))
             (fun x r =>
                occurs_in x (PlushTable.character r)
                \/ occurs_in x (PlushTable.variation r)
                \/ occurs_in x (PlushTable.set r))).
  - tauto.
  - intros x r' Hx. rewrite !orb_true_iff, !ilike_contains by exact Hx. tauto.
  - intros r'. left. apply occurs_in_empty.
  - exact Hq.
Qed.

Lemma in_spec (column : string) (values : list string) :
  Sql.in_ column values = true <-> In column values.
Proof.
  unfold Sql.in_. rewrite existsb_exists. split.
  - intros (v & Hin & Heq). apply String.eqb_eq in Heq. now subst.
  - intros Hin. exists column. split; [exact Hin | apply String.eqb_refl].
Qed.

Lemma In_values_filter {A : Type} (column : A -> string)
    (o : option (list string)) (l : list A) (r : A) :
  In r (if Py.truthy_opt_list o
        then List.filter (fun r => Sql.in_ (column r) (default [] o)) l
        else l)
  <-> In r l /\ (forall vs, o = Some vs -> vs <> [] -> In (column r) vs).
Proof.
  rewrite In_optional_filter. destruct o as [[| v vs] |]; cbn [Py.truthy_opt_list default].
  - split; intros [Hin H]; (split; [exact Hin |]).
    + intros vs' [= <-] Hne. contradiction.
    + discriminate.
  - rewrite in_spec. split; intros [Hin H]; (split; [exact Hin |]).
    + intros vs' [= <-] _. auto.
    + intros _. apply H; [reflexivity | discriminate].
  - split; intros [Hin H]; (split; [exact Hin |]); discriminate.
Qed.

Lemma In_min_filter {A : Type} (key : A -> Z) (o : option Z) (l : list A)
    (r : A) :
  o <> Some 0 ->
  In r (if Py.truthy_opt_int o
        then List.filter (fun r => default 0 o <=? key r) l
        else l)
  <-> In r l /\ (forall y, o = Some y -> y <= key r).
Proof.
  intros Hnz. rewrite In_optional_filter.
  destruct o as [y |]; cbn [Py.truthy_opt_int default]; unfold Py.truthy_int.
  - destruct (Z.eqb_spec y 0) as [-> | Hy]; [contradiction |].
    rewrite Z.leb_le. split; intros [Hin H]; (split; [exact Hin |]).
    + intros y' [= <-]. auto.
    + auto.
  - split; intros [Hin H]; (split; [exact Hin |]); discriminate.
Qed.

Lemma In_max_filter {A : Type} (key : A -> Z) (o : option Z) (l : list A)
    (r : A) :
  o <> Some 0 ->
  In r (if Py.truthy_opt_int o
        then List.filter (fun r => key r <=? default 0 o) l
        else l)
  <-> In r l /\ (forall y, o = Some y -> key r <= y).
Proof.
  intros Hnz. rewrite In_optional_filter.
  destruct o as [y |]; cbn [Py.truthy_opt_int default]; unfold Py.truthy_int.
  - destruct (Z.eqb_spec y 0) as [-> | Hy]; [contradiction |].
    rewrite Z.leb_le. split; intros [Hin H]; (split; [exact Hin |]).
    + intros y' [= <-]. auto.
    + auto.
  - split; intros [Hin H]; (split; [exact Hin |]); discriminate.
Qed.

Lemma filter_query_In (characters variations sets : option (list string))
    (min_year max_year : option Z) (db : Session) (r : PlushTable.row) :
  min_year <> Some 0 -> max_year <> Some 0 ->
  In r (filter_query characters variations sets min_year max_year db)
  <-> In r (plushtable db)
      /\ (forall vs, characters = Some vs -> vs <> [] ->
            In (PlushTable.character r) vs)
      /\ (forall vs, variations = Some vs -> vs <> [] ->
            In (PlushTable.variation r) vs)
      /\ (forall vs, sets = Some vs -> vs <> [] -> In (PlushTable.set r) vs)
      /\ (forall y, min_year = Some y -> y <= PlushTable.releaseyear r)
      /\ (forall y, max_year = Some y -> PlushTable.releaseyear r <= y).
Proof.
  intros Hmin Hmax. unfold filter_query.
  rewrite (In_max_filter PlushTable.releaseyear) by exact Hmax.
  rewrite (In_min_filter PlushTable.releaseyear) by exact Hmin.
  rewrite (In_values_filter PlushTable.set).
  rewrite (In_values_filter PlushTable.variation).
  rewrite (In_values_filter PlushTable.character).
  tauto.
Qed.

(** ** [ORDER BY] sorts *)

Section OrderBy.

Context {A : Type} (key : A -> Z).

Local Abbreviation key_le := (key_le key).

Lemma insert_by_perm (x : A) (l : list A) :
  Permutation (Sql.insert_by key x l) (x :: l).
Proof.
  induction l as [| y l IH]; cbn; [reflexivity |].
  destruct (key x <=? key y); [reflexivity |].
  rewrite IH. apply perm_swap.
Qed.

Lemma order_by_perm (l : list A) : Permutation (Sql.order_by key l) l.
Proof.
  induction l as [| x l IH]; cbn; [reflexivity |].
  rewrite insert_by_perm. now apply perm_skip.
Qed.

Lemma insert_by_sorted (x : A) (l : list A) :
  StronglySorted key_le l -> StronglySorted key_le (Sql.insert_by key x l).
Proof.
  induction 1 as [| y l Hsorted IH Hall]; cbn.
  - repeat constructor.
  - destruct (Z.leb_spec (key x) (key y)) as [Hle | Hgt].
    + constructor; [now constructor |].
      constructor; [exact Hle |].
      eapply List.Forall_impl; [| exact Hall].
      unfold key_le. intros; lia.
    + constructor; [exact IH |].
      eapply Permutation_Forall; [symmetry; apply insert_by_perm |].
      constructor; [unfold key_le; lia | exact Hall].
Qed.

Lemma order_by_sorted (l : list A) : StronglySorted key_le (Sql.order_by key l).
Proof.
  induction l as [| x l IH]; cbn; [constructor | now apply insert_by_sorted].
Qed.

Lemma skipn_sorted (n : nat) (l : list A) :
  StronglySorted key_le l -> StronglySorted key_le (skipn n l).
Proof.
  revert l. induction n as [| n IH]; intros l Hl; [exact Hl |].
  destruct Hl; cbn; [constructor | now apply IH].
Qed.

Lemma firstn_sorted (n : nat) (l : list A) :
  StronglySorted key_le l -> StronglySorted key_le (firstn n l).
Proof.
  revert l. induction n as [| n IH]; intros l Hl; [constructor |].
  destruct Hl as [| y l Hsorted Hall]; cbn; [constructor |].
  constructor; [now apply IH |].
  apply List.Forall_forall. intros z Hz.
  eapply List.Forall_forall in Hall; [exact Hall |].
  rewrite <- (firstn_skipn n l). apply in_or_app. now left.
Qed.

End OrderBy.

Lemma window_nonneg (d : dialect) (skip limit : Z) (query : list PlushTable.row) :
  0 <= skip -> 0 <= limit ->
  window d skip limit query
  = Ok (firstn (Z.to_nat limit) (skipn (Z.to_nat skip) query)).
Proof.
  intros Hs Hl. unfold window, Sql.offset, Sql.limit.
  destruct (Z.ltb_spec skip 0); [lia |]. cbn [bind].
  destruct (Z.ltb_spec limit 0); [lia | reflexivity].
Qed.

(** ** Looking a row up by a key *)

Lemma first_filter_None {A : Type} (f : A -> bool) (l : list A) :
  Sql.first (List.filter f l) = None <-> forall r, In r l -> f r = false.
Proof.
  induction l as [| x l IH]; cbn.
  - split; [intros _ r [] | reflexivity].
  - destruct (f x) eqn:Hx; cbn.
    + split; [discriminate |]. intros H. specialize (H x (or_introl eq_refl)).
      congruence.
    + rewrite IH. split.
      * intros H r [<- | Hin]; auto.
      * intros H r Hin. apply H. now right.
Qed.

Lemma first_filter_Some {A : Type} (f : A -> bool) (l : list A) (r : A) :
  Sql.first (List.filter f l) = Some r -> In r l /\ f r = true.
Proof.
  intros H. apply filter_In. destruct (List.filter f l) as [| y t]; [discriminate |].
  injection H as ->. now left.
Qed.

Lemma autoincrement_above (ids : list Z) (x : Z) :
  In x ids -> x < autoincrement ids.
Proof.
  unfold autoincrement. induction ids as [| y ids IH]; cbn; [intros [] |].
  intros [-> | Hin]; [lia |]. specialize (IH Hin). lia.
Qed.

Lemma autoincrement_fresh (ids : list Z) : ~ In (autoincrement ids) ids.
Proof. intros Hin. apply autoincrement_above in Hin. lia. Qed.

Lemma first_unique_username (name : string) (l : list User.row) (u : User.row) :
  List.NoDup (map User.username l) -> In u l -> User.username u = name ->
  Sql.first (List.filter (fun u => String.eqb (User.username u) name) l) = Some u.
Proof.
  induction l as [| x l IH]; cbn; [intros _ [] |].
  intros Hnd Hin Hname. inversion Hnd as [| ? ? Hnotin Hnd']; subst.
  destruct Hin as [-> | Hin].
  - rewrite String.eqb_refl. reflexivity.
  - destruct (String.eqb_spec (User.username x) (User.username u)) as [Heq | _].
    + exfalso. apply Hnotin. rewrite Heq. now apply in_map.
    + now apply IH.
Qed.

(** * The claims *)

(** ** C1 *)

(** C1.  The claim: a year bound of zero is still applied by the filter
    handler.  The handler tests the truth value of the bound, so a bound of
    zero selects the same rows as no bound at all: with [min_year = 0] the row
    of release year [-1] is returned, and with [max_year = 0] the row of
    release year [1991] is. *)
Theorem filter_zero_bound_not_applied :
  (forall characters variations sets max_year db,
      filter_query characters variations sets (Some 0) max_year db
      = filter_query characters variations sets None max_year db)
  /\ (forall characters variations sets min_year db,
         filter_query characters variations sets min_year (Some 0) db
         = filter_query characters variations sets min_year None db)
  /\ filter_plushies SQLite None None None (Some 0) None 0 10
       (mkSession [echidna; sonic] [])
     = Ok (mkEnvelope (Some (mkFilters None None None (Some 0) None))
             0 1 1 10 [echidna; sonic])
  /\ filter_plushies SQLite None None None None (Some 0) 0 10
       (mkSession [echidna; sonic] [])
     = Ok (mkEnvelope (Some (mkFilters None None None None (Some 0)))
             0 1 1 10 [echidna; sonic]).
Proof.
  split; [reflexivity |]. split; [reflexivity |].
  split; vm_compute; reflexivity.
Qed.

(** ** C2 *)

Lemma page_number_exact (skip limit : Z) :
  page_number skip limit
  = if limit =? 0 then 1 else floor_quotient skip limit + 1.
Proof.
  unfold page_number, Py.truthy_int, Py.floordiv, floor_quotient.
  destruct (limit =? 0); reflexivity.
Qed.




(** ** C3 *)




(** ** C4 *)

(** C4, the claim as stated fails: a list parameter that is given but empty
    is not a membership test that no row passes; the handler tests the truth
    value of the list and selects every row. *)
Lemma filter_empty_list_admits_all :
  In sonic (filter_query (Some []) None None None None shelf)
  /\ ~ In (PlushTable.character sonic) [].
Proof. split; [vm_compute; tauto | intros []]. Qed.

(** C4, amended.  For every collection and every filter call whose year
    bounds, when given, are not zero: a characters, variations or sets list
    that is given and not empty admits a row only if the field is equal to
    one of the listed values (membership, not substring), and a list that is
    given but empty admits every row; [min_year] and [max_year] are
    inclusive bounds on the release year; all the conditions hold together.
    With [min_year = 2000] and [max_year = 2010] a row of release year 1999
    is left out and a row of release year 2000 is kept. *)
Theorem filter_matches_conjunction
    (characters variations sets : option (list string))
    (min_year max_year : option Z) (db : Session) :
  min_year <> Some 0 -> max_year <> Some 0 ->
  (forall r,
      In r (filter_query characters variations sets min_year max_year db)
      <-> In r (plushtable db)
          /\ (forall vs, characters = Some vs -> vs <> [] ->
                In (PlushTable.character r) vs)
          /\ (forall vs, variations = Some vs -> vs <> [] ->
                In (PlushTable.variation r) vs)
          /\ (forall vs, sets = Some vs -> vs <> [] ->
                In (PlushTable.set r) vs)
          /\ (forall y, min_year = Some y -> y <= PlushTable.releaseyear r)
          /\ (forall y, max_year = Some y -> PlushTable.releaseyear r <= y))
  /\ (forall r,
        In r (plushtable db) ->
        (PlushTable.releaseyear r = 1999 ->
         ~ In r (filter_query None None None (Some 2000) (Some 2010) db))
        /\ (PlushTable.releaseyear r = 2000 ->
            In r (filter_query None None None (Some 2000) (Some 2010) db))).
Proof.
  intros Hmin Hmax. split.
  - intros r. now apply filter_query_In.
  - intros r Hin. split; intros Hyear.
    + rewrite filter_query_In by discriminate.
      intros (_ & _ & _ & _ & Hlo & _).
      specialize (Hlo 2000 eq_refl). lia.
    + apply filter_query_In; try discriminate.
      split; [exact Hin |].
      do 3 (split; [discriminate |]).
      split; intros y [= <-]; lia.
Qed.

Lemma filter_matches_conjunction_witness :
  Some 1999 <> Some 0
  /\ Some 2000 <> Some 0
  /\ In tails
       (filter_query (Some ["Tails"; "Amy"]%string) (Some []) None
          (Some 1999) (Some 2000) shelf)
  /\ ~ In sonic
       (filter_query (Some ["Tails"; "Amy"]%string) (Some []) None
          (Some 1999) (Some 2000) shelf).
Proof.
  assert (H1 : Some 1999 <> Some 0) by discriminate.
  assert (H2 : Some 2000 <> Some 0) by discriminate.
  split; [exact H1 |]. split; [exact H2 |].
  pose proof (proj1 (filter_matches_conjunction (Some ["Tails"; "Amy"]%string)
                       (Some []) None (Some 1999) (Some 2000) shelf H1 H2))
    as Hiff.
  split.
  - apply Hiff. split; [vm_compute; tauto |].
    split; [intros vs [= <-] _; now left |].
    split; [intros vs [= <-] Hne; now contradiction Hne |].
    split; [discriminate |].
    split; intros y [= <-]; vm_compute; discriminate.
  - intros Hin. apply Hiff in Hin as (_ & Hch & _).
    specialize (Hch _ eq_refl ltac:(discriminate)).
    vm_compute in Hch. intuition discriminate.
Defined.

(** ** C5 *)

(** C5.  With user names unique in the credential table (the column is
    declared unique), login fails with status 401 and detail "Invalid
    username or password" exactly when the user name has no credential
    record or the password does not verify against the stored hash, and then
    no token is returned; otherwise it returns a bearer token that encodes
    the subject [username] and the expiration [utcnow] plus 60 minutes. *)
Theorem login_401_or_token (pwd_context : CryptContext) (jwt : Jose)
    (SECRET_KEY : string) (utcnow : Z) (form_data : OAuth2PasswordRequestForm)
    (db : Session) :
  List.NoDup (map User.username (users db)) ->
  let absent :=
    forall u, In u (users db) -> User.username u <> username form_data in
  let mismatch :=
    exists u, In u (users db) /\ User.username u = username form_data
              /\ verify pwd_context (password form_data)
                   (User.hashed_password u) = false in
  let outcome := login pwd_context jwt SECRET_KEY utcnow form_data db in
  (outcome = Raise (HTTPException 401 "Invalid username or password")
   <-> absent \/ mismatch)
  /\ (~ (absent \/ mismatch) ->
      outcome
      = Ok (mkToken
              (encode jwt
                 (<["exp"%string := JDatetime (utcnow + 60 * 60 * 1000000)]>
                    {["sub"%string := JStr (username form_data)]})
                 SECRET_KEY "RS256")
              "bearer")).
Proof.
  intros Hnd absent mismatch outcome.
  subst outcome. unfold login.
  destruct (Sql.first _) as [u |] eqn:Hfirst.
  - apply first_filter_Some in Hfirst as Hu. destruct Hu as [Hin Hname].
    apply String.eqb_eq in Hname.
    unfold verify_password.
    destruct (verify pwd_context (password form_data) (User.hashed_password u))
      eqn:Hverify; cbn [negb].
    + assert (Hgood : ~ (absent \/ mismatch)).
      { intros [Habs | (u' & Hin' & Hname' & Hbad)].
        - exact (Habs u Hin Hname).
        - pose proof (first_unique_username _ _ u' Hnd Hin' Hname') as Hu'.
          rewrite Hfirst in Hu'. injection Hu' as <-. congruence. }
      split; [split; [discriminate | intros H; contradiction] |].
      intros _. unfold create_access_token. cbn [Py.truthy_opt_int default].
      rewrite Hname. reflexivity.
    + assert (Hbad : absent \/ mismatch) by (right; exists u; auto).
      split; [split; auto | intros H; contradiction].
  - assert (Habs : absent \/ mismatch).
    { left. intros u Hin Hname.
      pose proof (proj1 (first_filter_None _ _) Hfirst u Hin) as Hu.
      cbn in Hu. rewrite Hname, String.eqb_refl in Hu. discriminate. }
    split; [split; auto | intros H; contradiction].
Qed.

Lemma login_401_or_token_witness :
  List.NoDup (map User.username (users members))
  /\ login toy_context toy_jose "key" 1000000
       {| username := "amy"; password := "rose" |} members
     = Ok (mkToken "amy.RS256" "bearer")
  /\ login toy_context toy_jose "key" 1000000
       {| username := "amy"; password := "thorn" |} members
     = Raise (HTTPException 401 "Invalid username or password").
Proof.
  assert (Hnd : List.NoDup (map User.username (users members)))
    by (repeat constructor; intros []).
  split; [exact Hnd |].
  split.
  - rewrite (proj2 (login_401_or_token toy_context toy_jose "key" 1000000
                      {| username := "amy"; password := "rose" |} members Hnd)).
    + reflexivity.
    + intros [Habs | (u & [<- | []] & _ & Hbad)].
      * apply (Habs amy); [now left | reflexivity].
      * discriminate Hbad.
  - apply (proj1 (login_401_or_token toy_context toy_jose "key" 1000000
                    {| username := "amy"; password := "thorn" |} members Hnd)).
    right. exists amy. repeat split. now left.
Defined.

(** ** C6 *)

(** C6.  Registering a user name that has a credential record fails with
    status 400 and detail "Username already registered." and leaves the
    store as it was; a registration that succeeds adds one record, which
    holds the user name and the hash of the password; so a second
    registration of the same user name fails and keeps the first record. *)
Theorem register_conflict_and_hash (pwd_context : CryptContext)
    (salt : string) (form_data : OAuth2PasswordRequestForm) (db : Session) :
  let taken :=
    exists u, In u (users db) /\ User.username u = username form_data in
  (taken ->
   register pwd_context salt form_data db
   = (Raise (HTTPException 400 "Username already registered."), db))
  /\ (~ taken ->
      exists new_id,
        ~ In new_id (map User.id (users db))
        /\ register pwd_context salt form_data db
           = (Ok "User registered successfully!"%string,
              mkSession (plushtable db)
                (users db
                 ++ [User.mk new_id (username form_data)
                       (hash pwd_context salt (password form_data))])))
  /\ (forall salt' password',
        let db1 := snd (register pwd_context salt form_data db) in
        register pwd_context salt'
          {| username := username form_data; password := password' |} db1
        = (Raise (HTTPException 400 "Username already registered."), db1)).
Proof.
  intros taken.
  assert (Hfirst : forall name l,
             (exists u, In u l /\ User.username u = name)
             <-> Sql.first (List.filter
                              (fun u => String.eqb (User.username u) name) l)
                 <> None).
  { intros name l. rewrite first_filter_None. split.
    - intros (u & Hin & Hname) Hall. specialize (Hall u Hin). cbn in Hall.
      rewrite Hname, String.eqb_refl in Hall. discriminate.
    - intros Hsome.
      destruct (Sql.first (List.filter
                             (fun u => String.eqb (User.username u) name) l))
        as [u |] eqn:Hu.
      + apply first_filter_Some in Hu as [Hin Hname].
        apply String.eqb_eq in Hname. eauto.
      + exfalso. apply Hsome. now apply first_filter_None. }
  assert (Htaken : taken ->
            register pwd_context salt form_data db
            = (Raise (HTTPException 400 "Username already registered."), db)).
  { intros Ht. apply Hfirst in Ht. unfold register.
    destruct (Sql.first _); [reflexivity | contradiction]. }
  assert (Hfree : ~ taken ->
            register pwd_context salt form_data db
            = (Ok "User registered successfully!"%string,
               mkSession (plushtable db)
                 (users db
                  ++ [User.mk (autoincrement (map User.id (users db)))
                        (username form_data)
                        (hash pwd_context salt (password form_data))]))).
  { intros Hf. unfold register.
    destruct (Sql.first _) eqn:Hu; [| reflexivity].
    exfalso. apply Hf, Hfirst. subst taken. cbv beta. rewrite Hu. discriminate. }
  split; [exact Htaken |]. split.
  - intros Hf. exists (autoincrement (map User.id (users db))).
    split; [apply autoincrement_fresh | exact (Hfree Hf)].
  - intros salt' password' db1.
    assert (Hnow : exists u, In u (users db1)
                             /\ User.username u = username form_data).
    { subst db1. unfold register.
      destruct (Sql.first _) as [u |] eqn:Hu; cbn [snd users].
      - apply first_filter_Some in Hu as [Hin Hname].
        apply String.eqb_eq in Hname. eauto.
      - eexists. split; [apply in_or_app; right; now left | reflexivity]. }
    apply Hfirst in Hnow. unfold register. cbn [username].
    destruct (Sql.first _); [reflexivity | contradiction].
Qed.

Lemma register_conflict_and_hash_witness :
  register toy_context "salt" {| username := "amy"; password := "again" |}
    members
  = (Raise (HTTPException 400 "Username already registered."), members).
Proof.
  apply (proj1 (register_conflict_and_hash toy_context "salt"
                  {| username := "amy"; password := "again" |} members)).
  exists amy. split; [now left | reflexivity].
Defined.

(** ** C7 *)

(** C7.  For every create input, the identity of the returned record is that
    of no record already stored, and a get-by-id with that identity after the
    create returns the record, whose character, variation, set and release
    year are those of the input. *)
Theorem create_plush_then_get_plush (plush : PlushBase.t) (db : Session) :
  let created := fst (create_plush plush db) in
  let db' := snd (create_plush plush db) in
  ~ In (PlushTable.id created) (map PlushTable.id (plushtable db))
  /\ get_plush (PlushTable.id created) db' = Ok created
  /\ PlushTable.character created = PlushBase.character plush
  /\ PlushTable.variation created = PlushBase.variation plush
  /\ PlushTable.set created = PlushBase.set plush
  /\ PlushTable.releaseyear created = PlushBase.releaseyear plush.
Proof.
  cbn zeta. unfold create_plush. cbn [fst snd PlushTable.id].
  set (new_id := autoincrement (map PlushTable.id (plushtable db))).
  assert (Hfresh : ~ In new_id (map PlushTable.id (plushtable db)))
    by apply autoincrement_fresh.
  split; [exact Hfresh |].
  split; [| repeat split].
  unfold get_plush. cbn [plushtable].
  rewrite List.filter_app.
  assert (Hnone : List.filter (fun r => PlushTable.id r =? new_id) (plushtable db)
                  = []).
  { clearbody new_id.
    induction (plushtable db) as [| x l IH]; cbn; [reflexivity |].
    destruct (Z.eqb_spec (PlushTable.id x) new_id) as [Heq | _].
    - exfalso. apply Hfresh. left. exact Heq.
    - apply IH. intros Hin. apply Hfresh. now right. }
  rewrite Hnone. cbn. rewrite Z.eqb_refl. reflexivity.
Qed.

(** ** C8 *)



(** ** C9 *)

(** C9.  The single-item lookup fails with status 404 and detail "Plush not
    found!" exactly when no record of the collection has the requested
    identity; otherwise it returns a record of the collection with that
    identity. *)
Theorem get_plush_404_iff_absent (plush_id : Z) (db : Session) :
  (get_plush plush_id db = Raise (HTTPException 404 "Plush not found!")
   <-> ~ exists r, In r (plushtable db) /\ PlushTable.id r = plush_id)
  /\ ((exists r, In r (plushtable db) /\ PlushTable.id r = plush_id) <->
      exists r, get_plush plush_id db = Ok r
                /\ In r (plushtable db) /\ PlushTable.id r = plush_id).
Proof.
  unfold get_plush.
  destruct (Sql.first _) as [r |] eqn:Hfirst.
  - apply first_filter_Some in Hfirst as [Hin Hid]. apply Z.eqb_eq in Hid.
    split; split.
    + discriminate.
    + intros Hnone. exfalso. apply Hnone. eauto.
    + intros _. eauto.
    + intros (r' & _ & Hin' & Hid'). eauto.
  - assert (Hnone : ~ exists r, In r (plushtable db) /\ PlushTable.id r = plush_id).
    { intros (r & Hin & Hid).
      pose proof (proj1 (first_filter_None _ _) Hfirst r Hin) as Hr.
      cbn in Hr. apply Z.eqb_neq in Hr. contradiction. }
    split; split.
    + intros _. exact Hnone.
    + reflexivity.
    + intros H. contradiction.
    + intros (r & Habs & _). discriminate.
Qed.

(** ** C10 *)

(** C10.  A text parameter of the search that is the empty string, and a
    list parameter of the filter that is the empty list, act as if the
    parameter were left out: the search returns the same envelope, and the
    filter selects the same rows and returns the same page (its envelope
    echoes the empty list it was given); with no other condition, every row
    passes. *)
Theorem falsy_parameters_are_absent (d : dialect)
    (q character variation set : option string)
    (characters variations sets : option (list string))
    (min_year max_year : option Z) (skip limit : Z) (db : Session) :
  search_plushies d (Some ""%string) character variation set skip limit db
  = search_plushies d None character variation set skip limit db
  /\ search_plushies d q (Some ""%string) variation set skip limit db
     = search_plushies d q None variation set skip limit db
  /\ search_plushies d q character (Some ""%string) set skip limit db
     = search_plushies d q character None set skip limit db
  /\ search_plushies d q character variation (Some ""%string) skip limit db
     = search_plushies d q character variation None skip limit db
  /\ filter_query (Some []) variations sets min_year max_year db
     = filter_query None variations sets min_year max_year db
  /\ filter_query characters (Some []) sets min_year max_year db
     = filter_query characters None sets min_year max_year db
  /\ filter_query characters variations (Some []) min_year max_year db
     = filter_query characters variations None min_year max_year db
  /\ same_page
       (filter_plushies d (Some []) variations sets min_year max_year
          skip limit db)
       (filter_plushies d None variations sets min_year max_year
          skip limit db)
  /\ same_page
       (filter_plushies d characters (Some []) sets min_year max_year
          skip limit db)
       (filter_plushies d characters None sets min_year max_year
          skip limit db)
  /\ same_page
       (filter_plushies d characters variations (Some []) min_year max_year
          skip limit db)
       (filter_plushies d characters variations None min_year max_year
          skip limit db)
  /\ filter_query (Some []) (Some []) (Some []) None None db = plushtable db.
Proof.
  assert (Hpage : forall f1 f2 query,
             same_page
               (let* results := window d skip limit query in
                let* total_pages := page_count (Z.of_nat (length query)) limit in
                Ok (mkEnvelope f1 skip total_pages (page_number skip limit)
                      limit results))
               (let* results := window d skip limit query in
                let* total_pages := page_count (Z.of_nat (length query)) limit in
                Ok (mkEnvelope f2 skip total_pages (page_number skip limit)
                      limit results))).
  { intros f1 f2 query.
    destruct (window d skip limit query); cbn; [| reflexivity].
    destruct (page_count _ limit); cbn; reflexivity. }
  repeat split; try reflexivity; apply Hpage.
Qed.

(** * Further properties of the handlers *)

(** ** The full listing and its pages *)

(** X1.  The full listing holds every stored row once and is in ascending
    order of identity. *)
Theorem get_all_plushies_sorted (db : Session) :
  Permutation (get_all_plushies db) (plushtable db)
  /\ ascending PlushTable.id (get_all_plushies db)
  /\ length (get_all_plushies db) = length (plushtable db).
Proof.
  unfold get_all_plushies.
  pose proof (order_by_perm PlushTable.id (plushtable db)) as Hperm.
  split; [exact Hperm |].
  split; [apply order_by_sorted | apply Permutation_length, Hperm].
Qed.

Lemma firstn_plus {A : Type} (a b : nat) (l : list A) :
  firstn (a + b) l = firstn a l ++ firstn b (skipn a l).
Proof.
  revert l. induction a as [| a IH]; intros l; [reflexivity |].
  destruct l as [| x l]; cbn.
  - now rewrite firstn_nil.
  - now rewrite IH.
Qed.

Lemma skipn_plus {A : Type} (a b : nat) (l : list A) :
  skipn (a + b) l = skipn b (skipn a l).
Proof.
  revert l. induction a as [| a IH]; intros l; [reflexivity |].
  destruct l as [| x l]; cbn; [now rewrite skipn_nil | apply IH].
Qed.

(** X2.  Consecutive pages tile the listing: the page of [l1] rows at [skip]
    followed by the page of [l2] rows at [skip + l1] is the page of
    [l1 + l2] rows at [skip]. *)
Theorem get_plushies_pages_tile (d : dialect) (skip l1 l2 : Z) (db : Session) :
  0 <= skip -> 0 <= l1 -> 0 <= l2 ->
  exists p1 p2,
    get_plushies d skip l1 db = Ok p1
    /\ get_plushies d (skip + l1) l2 db = Ok p2
    /\ get_plushies d skip (l1 + l2) db = Ok (p1 ++ p2).
Proof.
  intros Hs H1 H2. unfold get_plushies.
  rewrite !window_nonneg by lia.
  eexists _, _. split; [reflexivity |]. split; [reflexivity |].
  rewrite !Z2Nat.inj_add by lia.
  rewrite firstn_plus, skipn_plus. reflexivity.
Qed.

Lemma get_plushies_pages_tile_witness :
  0 <= 1 /\ 0 <= 1 /\ 0 <= 2
  /\ get_plushies SQLite 1 (1 + 2) shelf = Ok ([tails] ++ [knuckles; echidna]).
Proof.
  assert (H0 : 0 <= 1) by lia. assert (H2 : 0 <= 2) by lia.
  split; [exact H0 |]. split; [exact H0 |]. split; [exact H2 |].
  destruct (get_plushies_pages_tile SQLite 1 1 2 shelf H0 H0 H2)
    as (p1 & p2 & Hp1 & Hp2 & Hp).
  vm_compute in Hp1. vm_compute in Hp2.
  injection Hp1 as <-. injection Hp2 as <-. exact Hp.
Defined.

(** ** Creating records *)

Lemma autoincrement_snoc (ids : list Z) :
  autoincrement (ids ++ [autoincrement ids]) = autoincrement ids + 1.
Proof.
  unfold autoincrement.
  assert (Hmax : forall m l, 0 <= m ->
             fold_right Z.max 0 (l ++ [m]) = Z.max (fold_right Z.max 0 l) m).
  { intros m l Hm. induction l as [| y l IH]; cbn; [lia |]. rewrite IH. lia. }
  assert (Hpos : forall l, 0 <= fold_right Z.max 0 l)
    by (induction l; cbn; lia).
  rewrite Hmax by (specialize (Hpos ids); lia).
  specialize (Hpos ids). lia.
Qed.

Lemma autoincrement_positive (ids : list Z) : 1 <= autoincrement ids.
Proof.
  unfold autoincrement.
  assert (0 <= fold_right Z.max 0 ids) by (induction ids; cbn; lia). lia.
Qed.

Lemma filter_id_none (rows : list PlushTable.row) (n : Z) :
  ~ In n (map PlushTable.id rows) ->
  List.filter (fun r => PlushTable.id r =? n) rows = [].
Proof.
  induction rows as [| x l IH]; cbn; [reflexivity |]. intros Hnot.
  destruct (Z.eqb_spec (PlushTable.id x) n) as [Heq | _].
  - exfalso. apply Hnot. now left.
  - apply IH. intros Hin. apply Hnot. now right.
Qed.

(** X3.  Records are not deduplicated: creating the same input twice stores
    two records with the same four fields and consecutive identities, and
    each is returned by a lookup of its identity. *)
Theorem create_plush_twice (plush : PlushBase.t) (db : Session) :
  let r1 := fst (create_plush plush db) in
  let db1 := snd (create_plush plush db) in
  let r2 := fst (create_plush plush db1) in
  let db2 := snd (create_plush plush db1) in
  PlushTable.id r2 = PlushTable.id r1 + 1
  /\ 1 <= PlushTable.id r1
  /\ PlushTable.character r2 = PlushTable.character r1
  /\ PlushTable.variation r2 = PlushTable.variation r1
  /\ PlushTable.set r2 = PlushTable.set r1
  /\ PlushTable.releaseyear r2 = PlushTable.releaseyear r1
  /\ get_plush (PlushTable.id r1) db2 = Ok r1
  /\ get_plush (PlushTable.id r2) db2 = Ok r2.
Proof.
  cbn zeta. unfold create_plush. cbn [fst snd plushtable PlushTable.id users].
  set (ids := map PlushTable.id (plushtable db)).
  set (r1 := PlushTable.mk (autoincrement ids) _ _ _ _).
  assert (Hids1 : map PlushTable.id (plushtable db ++ [r1])
                  = ids ++ [autoincrement ids])
    by (rewrite map_app; reflexivity).
  rewrite Hids1, autoincrement_snoc.
  assert (Hfresh : ~ In (autoincrement ids) ids) by apply autoincrement_fresh.
  assert (Hpos : 1 <= autoincrement ids) by apply autoincrement_positive.
  split; [reflexivity |]. split; [exact Hpos |].
  do 4 (split; [reflexivity |]).
  unfold get_plush. cbn [plushtable].
  split.
  - rewrite !List.filter_app, filter_id_none by exact Hfresh.
    cbn. rewrite Z.eqb_refl. reflexivity.
  - rewrite !List.filter_app, filter_id_none.
    + cbn. destruct (Z.eqb_spec (autoincrement ids) (autoincrement ids + 1));
        [lia |]. cbn. rewrite Z.eqb_refl. reflexivity.
    + intros Hin. apply autoincrement_above in Hin. fold ids in Hin. lia.
Qed.

(** ** Tokens and credentials *)

(** X4.  The token payload is the given claims with ["exp"] set, any
    ["exp"] among them replaced: to the clock reading plus the given
    lifetime, and to the clock reading plus 15 minutes when no lifetime is
    given or the lifetime given is zero. *)
Theorem create_access_token_payload (jwt : Jose) (SECRET_KEY : string)
    (utcnow : Z) (data : gmap string jwt_value) (expires_delta : option Z) :
  exists payload : gmap string jwt_value,
    create_access_token jwt SECRET_KEY utcnow data expires_delta
    = encode jwt payload SECRET_KEY "RS256"
    /\ payload !! "exp"%string
       = Some (JDatetime
                 (utcnow + match expires_delta with
                           | Some 0 | None => 15 * 60 * 1000000
                           | Some delta => delta
                           end))
    /\ (forall k : string, k <> "exp"%string -> payload !! k = data !! k).
Proof.
  unfold create_access_token. eexists. split; [reflexivity |]. split.
  - rewrite lookup_insert_eq. do 2 f_equal.
    destruct expires_delta as [[| p | p] |]; reflexivity.
  - intros k Hk. now rewrite lookup_insert_ne.
Qed.

Lemma filter_none {A : Type} (f : A -> bool) (l : list A) :
  (forall r, In r l -> f r = false) -> List.filter f l = [].
Proof.
  induction l as [| x l IH]; intros Hall; cbn; [reflexivity |].
  rewrite (Hall x) by now left. apply IH. intros r Hr. apply Hall. now right.
Qed.

(** X5.  With a password context whose [verify] accepts the hashes its
    [hash] makes, a user who registers a free user name can log in with the
    same password and gets a bearer token for that user name; a password the
    stored hash does not verify is refused with status 401. *)
Theorem register_then_login (pwd_context : CryptContext) (jwt : Jose)
    (SECRET_KEY salt : string) (utcnow : Z)
    (form_data : OAuth2PasswordRequestForm) (db : Session) :
  (forall s p, verify pwd_context p (hash pwd_context s p) = true) ->
  (forall u, In u (users db) -> User.username u <> username form_data) ->
  let db' := snd (register pwd_context salt form_data db) in
  login pwd_context jwt SECRET_KEY utcnow form_data db'
  = Ok (mkToken
          (encode jwt
             (<["exp"%string := JDatetime (utcnow + 60 * 60 * 1000000)]>
                {["sub"%string := JStr (username form_data)]})
             SECRET_KEY "RS256")
          "bearer")
  /\ (forall other,
        verify pwd_context other
          (hash pwd_context salt (password form_data)) = false ->
        login pwd_context jwt SECRET_KEY utcnow
          {| username := username form_data; password := other |} db'
        = Raise (HTTPException 401 "Invalid username or password")).
Proof.
  intros Hverify Hfree db'.
  assert (Hnone : List.filter
                    (fun u => String.eqb (User.username u) (username form_data))
                    (users db) = []).
  { apply filter_none. intros u Hu. apply String.eqb_neq. now apply Hfree. }
  assert (Hdb' : users db'
                 = users db
                   ++ [User.mk (autoincrement (map User.id (users db)))
                         (username form_data)
                         (hash pwd_context salt (password form_data))]).
  { subst db'. unfold register. rewrite Hnone. reflexivity. }
  split.
  - unfold login. rewrite Hdb', List.filter_app, Hnone.
    cbn. rewrite String.eqb_refl. cbn.
    unfold verify_password. rewrite Hverify. reflexivity.
  - intros other Hbad. unfold login. cbn [username password].
    rewrite Hdb', List.filter_app, Hnone.
    cbn. rewrite String.eqb_refl. cbn.
    unfold verify_password. rewrite Hbad. reflexivity.
Qed.

Lemma register_then_login_witness :
  (forall s p, verify toy_context p (hash toy_context s p) = true)
  /\ (forall u, In u (users members) -> User.username u <> "tails"%string)
  /\ login toy_context toy_jose "key" 0
       {| username := "tails"; password := "fly" |}
       (snd (register toy_context "salt"
               {| username := "tails"; password := "fly" |} members))
     = Ok (mkToken "tails.RS256" "bearer").
Proof.
  assert (H1 : forall s p, verify toy_context p (hash toy_context s p) = true)
    by (intros s p; apply String.eqb_refl).
  assert (H2 : forall u, In u (users members) ->
                         User.username u <> "tails"%string)
    by (intros u [<- | []]; discriminate).
  split; [exact H1 |]. split; [exact H2 |].
  rewrite (proj1 (register_then_login toy_context toy_jose "key" "salt" 0
                    {| username := "tails"; password := "fly" |} members
                    H1 H2)).
  reflexivity.
Defined.

(** X6.  Registration keeps user names pairwise distinct and user
    identities pairwise distinct, keeps every credential record already
    stored, in place, and does not touch the catalog table. *)
Theorem register_keeps_unique (pwd_context : CryptContext) (salt : string)
    (form_data : OAuth2PasswordRequestForm) (db : Session) :
  List.NoDup (map User.username (users db)) ->
  List.NoDup (map User.id (users db)) ->
  let db' := snd (register pwd_context salt form_data db) in
  List.NoDup (map User.username (users db'))
  /\ List.NoDup (map User.id (users db'))
  /\ (exists added, users db' = users db ++ added /\ (length added <= 1)%nat)
  /\ plushtable db' = plushtable db.
Proof.
  intros Hnames Hids db'. subst db'. unfold register.
  destruct (Sql.first _) as [u |] eqn:Hfirst; cbn [snd users plushtable].
  - repeat split; try assumption. exists []. rewrite app_nil_r. auto.
  - repeat split.
    + rewrite map_app. cbn [map User.username].
      eapply Permutation_NoDup; [apply Permutation_cons_append |].
      constructor; [| exact Hnames].
      intros Hin. apply in_map_iff in Hin as (u & Hname & Hu).
      pose proof (proj1 (first_filter_None _ _) Hfirst u Hu) as Hneq.
      cbn in Hneq. rewrite Hname, String.eqb_refl in Hneq. discriminate.
    + rewrite map_app. cbn [map User.id].
      eapply Permutation_NoDup; [apply Permutation_cons_append |].
      constructor; [apply autoincrement_fresh | exact Hids].
    + eexists. split; [reflexivity | cbn; lia].
Qed.

Lemma register_keeps_unique_witness :
  List.NoDup (map User.username (users members))
  /\ List.NoDup (map User.id (users members))
  /\ List.NoDup
       (map User.username
          (users (snd (register toy_context "salt"
                         {| username := "tails"; password := "fly" |}
                         members)))).
Proof.
  assert (H1 : List.NoDup (map User.username (users members)))
    by (repeat constructor; intros []).
  assert (H2 : List.NoDup (map User.id (users members)))
    by (repeat constructor; intros []).
  split; [exact H1 |]. split; [exact H2 |].
  exact (proj1 (register_keeps_unique toy_context "salt"
                  {| username := "tails"; password := "fly" |} members H1 H2)).
Defined.
